(** * scanner.py: the NAPS2 command-line wrapper

    A shallow embedding of [scanner.py].  Python text is a sequence of
    Unicode code points, subprocess output is a byte string, and the
    coroutines of the script are written in a state-and-exception monad
    over a world made of the file system, the console and the list of
    launched commands.  What the operating system and the external
    scanner tool do is held in an environment record. *)

From Stdlib Require Import List Bool String Ascii Strings.Byte NArith ZArith Lia.
From Stdlib Require Import Sorted Permutation DecimalN DecimalZ DecimalPos.
Import ListNotations.

(** ** Text *)

Module Text.

(** A Python [str]: its code points in order. *)
Definition str : Type := list N.

(** A Python [bytes] value. *)
Definition bytes : Type := list byte.

(** A literal of the source, which is ASCII throughout. *)
Definition u (s : string) : str :=
  map N_of_ascii (list_ascii_of_string s).

Local Open Scope N_scope.

Definition NL : N := 10.

(** The characters [str.strip()] removes when called without
    argument (CPython's [_PyUnicode_IsWhitespace]). *)
Definition is_space (c : N) : bool :=
  ((9 <=? c) && (c <=? 13))
  || ((28 <=? c) && (c <=? 32))
  || (c =? 133) || (c =? 160) || (c =? 5760)
  || ((8192 <=? c) && (c <=? 8202))
  || (c =? 8232) || (c =? 8233) || (c =? 8239) || (c =? 8287)
  || (c =? 12288).

Fixpoint lstrip (s : str) : str :=
  match s with
  | [] => []
  | c :: t => if is_space c then lstrip t else s
  end.

Fixpoint rstrip (s : str) : str :=
  match s with
  | [] => []
  | c :: t =>
      match rstrip t with
      | [] => if is_space c then [] else [c]
      | t' => c :: t'
      end
  end.

(** [s.strip()] *)
Definition strip (s : str) : str := rstrip (lstrip s).

(** [s.split(sep)] for a one-character separator: never empty. *)
Fixpoint split (sep : N) (s : str) : list str :=
  match s with
  | [] => [[]]
  | c :: t =>
      if c =? sep then [] :: split sep t
      else match split sep t with
           | [] => [[c]]
           | l :: ls => (c :: l) :: ls
           end
  end.

(** [sep.join(parts)] *)
Fixpoint join (sep : str) (parts : list str) : str :=
  match parts with
  | [] => []
  | [p] => p
  | p :: ps => p ++ sep ++ join sep ps
  end.

Fixpoint str_eqb (a b : str) : bool :=
  match a, b with
  | [], [] => true
  | x :: a', y :: b' => (x =? y) && str_eqb a' b'
  | _, _ => false
  end.

(** Code-point-wise lexicographic order, Python's [<=] on [str]. *)
Fixpoint str_leb (a b : str) : bool :=
  match a, b with
  | [], _ => true
  | _ :: _, [] => false
  | x :: a', y :: b' =>
      if x <? y then true
      else if y <? x then false
      else str_leb a' b'
  end.

(** [s.lower()] on the ASCII letters.  No character outside ASCII
    lower-cases to [p], [d] or [f], so the comparison of the script,
    [file_format.lower() == "pdf"], is decided as in Python. *)
Definition lower_char (c : N) : N :=
  if (65 <=? c) && (c <=? 90) then c + 32 else c.

Definition lower (s : str) : str := map lower_char s.




(** *** Decimal numerals *)

Fixpoint uint_codes (d : Decimal.uint) : str :=
  match d with
  | Decimal.Nil => []
  | Decimal.D0 r => 48 :: uint_codes r
  | Decimal.D1 r => 49 :: uint_codes r
  | Decimal.D2 r => 50 :: uint_codes r
  | Decimal.D3 r => 51 :: uint_codes r
  | Decimal.D4 r => 52 :: uint_codes r
  | Decimal.D5 r => 53 :: uint_codes r
  | Decimal.D6 r => 54 :: uint_codes r
  | Decimal.D7 r => 55 :: uint_codes r
  | Decimal.D8 r => 56 :: uint_codes r
  | Decimal.D9 r => 57 :: uint_codes r
  end.

(** [str(n)] for an [int]. *)
Definition str_of_Z (n : Z) : str :=
  match Z.to_int n with
  | Decimal.Pos d => uint_codes d
  | Decimal.Neg d => 45 :: uint_codes d
  end.

(** Digits in groups of three from the right, as [format(n, ",")]. *)
Fixpoint group3 (rev_digits : str) : str :=
  match rev_digits with
  | a :: b :: c :: ((_ :: _) as rest) => a :: b :: c :: 44 :: group3 rest
  | short => short
  end.

(** [f"{n:,}"] *)
Definition str_of_Z_grouped (n : Z) : str :=
  match Z.to_int n with
  | Decimal.Pos d => rev (group3 (rev (uint_codes d)))
  | Decimal.Neg d => 45 :: rev (group3 (rev (uint_codes d)))
  end.

(** *** UTF-8 *)

Definition is_cont (b : N) : bool := (128 <=? b) && (b <=? 191).

Definition cont_bits (b : N) : N := N.land b 63.

(** [b.decode()]: strict UTF-8; [None] stands for
    [UnicodeDecodeError]. *)
Fixpoint utf8_decode_N (bs : list N) : option str :=
  match bs with
  | [] => Some []
  | b0 :: r0 =>
      if b0 <? 128 then option_map (cons b0) (utf8_decode_N r0)
      else if (194 <=? b0) && (b0 <=? 223) then
        match r0 with
        | b1 :: r1 =>
            if is_cont b1 then
              option_map
                (cons (N.lor (N.shiftl (N.land b0 31) 6) (cont_bits b1)))
                (utf8_decode_N r1)
            else None
        | _ => None
        end
      else if (224 <=? b0) && (b0 <=? 239) then
        match r0 with
        | b1 :: b2 :: r2 =>
            if is_cont b1 && is_cont b2
               && (negb (b0 =? 224) || (160 <=? b1))
               && (negb (b0 =? 237) || (b1 <=? 159))
            then
              option_map
                (cons (N.lor (N.shiftl (N.land b0 15) 12)
                         (N.lor (N.shiftl (cont_bits b1) 6) (cont_bits b2))))
                (utf8_decode_N r2)
            else None
        | _ => None
        end
      else if (240 <=? b0) && (b0 <=? 244) then
        match r0 with
        | b1 :: b2 :: b3 :: r3 =>
            if is_cont b1 && is_cont b2 && is_cont b3
               && (negb (b0 =? 240) || (144 <=? b1))
               && (negb (b0 =? 244) || (b1 <=? 143))
            then
              option_map
                (cons (N.lor (N.shiftl (N.land b0 7) 18)
                         (N.lor (N.shiftl (cont_bits b1) 12)
                            (N.lor (N.shiftl (cont_bits b2) 6)
                               (cont_bits b3)))))
                (utf8_decode_N r3)
            else None
        | _ => None
        end
      else None
  end.

Definition decode (b : bytes) : option str :=
  utf8_decode_N (map Byte.to_N b).

(** The bytes of an ASCII literal. *)
Definition b (s : string) : bytes :=
  map byte_of_ascii (list_ascii_of_string s).

End Text.
Import Text.

(** ** The world outside the script *)

Module Runtime.

(** The exception classes the script meets.  The last two derive from
    [BaseException] only, all others from [Exception]. *)
Inductive exn_class : Type :=
| FileNotFoundError
| PermissionError
| OSError
| UnicodeDecodeError
| ValueError
| NotImplementedError
| RuntimeError
| KeyboardInterrupt
| CancelledError.

Record exn : Type := Exn { exn_kind : exn_class; exn_msg : str }.

(** [isinstance(e, Exception)] *)
Definition is_Exception (e : exn) : bool :=
  match exn_kind e with
  | KeyboardInterrupt | CancelledError => false
  | _ => true
  end.

(** [isinstance(e, (FileNotFoundError, OSError))] *)
Definition is_OSError (e : exn) : bool :=
  match exn_kind e with
  | FileNotFoundError | PermissionError | OSError => true
  | _ => false
  end.

Inductive result (A : Type) : Type :=
| Ret (a : A)
| Raise (e : exn).
Arguments Ret {A} a.
Arguments Raise {A} e.

(** A regular file of a folder: its name and [st_size]. *)
Record File : Type := { f_name : str; f_size : Z }.

(** Folders by the path they are opened with; [None] is a path at
    which there is no folder. *)
Definition FS : Type := str -> option (list File).

Record World : Type := {
  fs : FS;
  console : list str;            (* one entry per call of print *)
  launched : list (list str)     (* argument vectors, oldest first *)
}.

Inductive stream : Type := Stdout | Stderr.

(** The calls into the operating system that can raise. *)
Inductive op : Type :=
| Mkdir (folder : str)
| Exists (folder : str)
| Exec (argv : list str)
| Readline (s : stream)
| Wait
| Communicate
| Glob (folder pattern : str)
| Stat (folder name : str)
| Absolute (folder : str).

(** One execution of the external tool. *)
Record Run : Type := {
  r_stdout : bytes;
  r_stderr : bytes;
  r_exit : Z;
  r_fs : FS;                     (* the file system it leaves *)
  r_order : list stream          (* whose line arrives next *)
}.

(** What the script cannot decide: which system calls fail and how,
    what the tool does for a command line, and the conventions of the
    platform for file names. *)
Record Env : Type := {
  fault : World -> op -> option exn;
  tool : FS -> list str -> Run;
  fnmatch : str -> str -> bool;  (* pattern, then file name *)
  normcase : str -> str;         (* key under which paths compare *)
  absolute : str -> str
}.

Definition M (A : Type) : Type := World -> result A * World.

Definition ret {A} (a : A) : M A := fun w => (Ret a, w).

Definition raise {A} (e : exn) : M A := fun w => (Raise e, w).

Definition bind {A B} (m : M A) (k : A -> M B) : M B :=
  fun w =>
    match m w with
    | (Ret a, w') => k a w'
    | (Raise e, w') => (Raise e, w')
    end.

(** [try: body / except <classes> as e: handler e] *)
Definition try_except {A} (body : M A) (classes : exn -> bool)
    (handler : exn -> M A) : M A :=
  fun w =>
    match body w with
    | (Raise e, w') => if classes e then handler e w' else (Raise e, w')
    | r => r
    end.

Declare Scope py_scope.
Delimit Scope py_scope with py.
Notation "x <- m ;; k" := (bind m (fun x => k))
  (at level 61, m at next level, right associativity) : py_scope.
Notation "m ;; k" := (bind m (fun _ => k))
  (at level 61, right associativity) : py_scope.
Local Open Scope py_scope.

(** The world after some lines were printed. *)
Definition say (w : World) (lines : list str) : World :=
  {| fs := fs w; console := console w ++ lines; launched := launched w |}.

(** The world with another file system. *)
Definition with_fs (w : World) (f : FS) : World :=
  {| fs := f; console := console w; launched := launched w |}.

(** The world after an attempt to launch [argv]. *)
Definition log_launch (w : World) (argv : list str) : World :=
  {| fs := fs w; console := console w; launched := launched w ++ [argv] |}.

(** Console writes always go through: [print] appends to the log. *)
Definition print (s : str) : M unit :=
  fun w => (Ret tt, say w [s]).

Definition syscall (env : Env) (o : op) : M unit :=
  fun w =>
    match fault env w o with
    | Some e => (Raise e, w)
    | None => (Ret tt, w)
    end.

Definition set_fs (f : FS) : M unit :=
  fun w => (Ret tt, with_fs w f).

Definition get_fs : M FS := fun w => (Ret (fs w), w).

(** The file system once [folder] is made sure to exist. *)
Definition fs_mkdir (f : FS) (folder : str) : FS :=
  match f folder with
  | Some _ => f
  | None => fun p => if str_eqb p folder then Some [] else f p
  end.

(** [Path(folder).mkdir(parents=True, exist_ok=True)] *)
Definition path_mkdir (env : Env) (folder : str) : M unit :=
  syscall env (Mkdir folder) ;;
  f <- get_fs ;;
  set_fs (fs_mkdir f folder).

(** [Path(folder).exists()] *)
Definition path_exists (env : Env) (folder : str) : M bool :=
  syscall env (Exists folder) ;;
  f <- get_fs ;;
  ret (match f folder with Some _ => true | None => false end).

(** The files of [folder] whose name matches [pattern], in
    directory order; none where there is no such folder. *)
Definition fs_glob (env : Env) (f : FS) (folder pattern : str) : list File :=
  match f folder with
  | Some entries => filter (fun e => fnmatch env pattern (f_name e)) entries
  | None => []
  end.

(** [list(Path(folder).glob(pattern))] *)
Definition path_glob (env : Env) (folder pattern : str) : M (list File) :=
  syscall env (Glob folder pattern) ;;
  f <- get_fs ;;
  ret (fs_glob env f folder pattern).

(** [file_path.stat().st_size] *)
Definition path_stat_size (env : Env) (folder : str) (e : File) : M Z :=
  syscall env (Stat folder (f_name e)) ;;
  ret (f_size e).

(** [Path(folder).absolute()] *)
Definition path_absolute (env : Env) (folder : str) : M str :=
  syscall env (Absolute folder) ;;
  ret (absolute env folder).

(** [str(Path(folder) / name)] for a plain relative [name], written
    with the separator of the specification.  What pathlib does
    besides (dropping doubled separators and [.] segments, the
    platform's own separator) is left out: it changes neither the
    file name nor where the path ends. *)
Definition path_join (folder name : str) : str :=
  folder ++ u "/" ++ name.

(** [asyncio.create_subprocess_exec] with both streams piped.
    The attempt is logged whether or not the launch succeeds; the
    script looks at the file system again only after the child has
    ended, so the child's files are put in place here. *)
Definition create_subprocess_exec (env : Env) (argv : list str) : M Run :=
  fun w =>
    let w1 := log_launch w argv in
    match fault env w1 (Exec argv) with
    | Some e => (Raise e, w1)
    | None =>
        let r := tool env (fs w) argv in
        (Ret r, with_fs w1 (r_fs r))
    end.

(** [process.wait()] *)
Definition process_wait (env : Env) (p : Run) : M Z :=
  syscall env Wait ;; ret (r_exit p).

(** [process.communicate()] *)
Definition process_communicate (env : Env) (p : Run) : M (bytes * bytes) :=
  syscall env Communicate ;; ret (r_stdout p, r_stderr p).

(** [b.decode()] *)
Definition bytes_decode (bs : bytes) : M str :=
  match decode bs with
  | Some s => ret s
  | None =>
      raise (Exn UnicodeDecodeError
               (u "'utf-8' codec can't decode bytes"))
  end.

(** The lines [stream.readline()] hands out before it returns the
    empty byte string: each keeps its line feed, the last may lack
    one. *)
Fixpoint readlines (bs : bytes) : list bytes :=
  match bs with
  | [] => []
  | c :: t =>
      if Byte.eqb c x0a then [c] :: readlines t
      else match readlines t with
           | [] => [[c]]
           | l :: ls => (c :: l) :: ls
           end
  end.

(** The order in which two readers get their lines: [order] names
    the reader served next; a reader whose stream is exhausted is
    passed over, and when [order] runs out standard output is
    drained before standard error. *)
Fixpoint interleave {X} (order : list stream) (out err : list X)
    : list (stream * X) :=
  match order with
  | [] => map (pair Stdout) out ++ map (pair Stderr) err
  | Stdout :: rest =>
      match out with
      | x :: out' => (Stdout, x) :: interleave rest out' err
      | [] => interleave rest [] err
      end
  | Stderr :: rest =>
      match err with
      | x :: err' => (Stderr, x) :: interleave rest out err'
      | [] => interleave rest out []
      end
  end.

(** [for x in xs: body x] *)
Fixpoint for_each {X} (xs : list X) (body : X -> M unit) : M unit :=
  match xs with
  | [] => ret tt
  | x :: rest => body x ;; for_each rest body
  end.

End Runtime.
Import Runtime.
Local Open Scope py_scope.

(** ** The script *)

Module Scanner.

Definition nonempty {X} (l : list X) : bool :=
  match l with [] => false | _ :: _ => true end.

(** The version query, line 249. *)
Definition version_command : list str :=
  [u "NAPS2.Console"; u "--version"].

(** The device listing, line 271. *)
Definition listing_command (driver : str) : list str :=
  [u "NAPS2.Console"; u "--driver"; driver; u "--listdevices"].

(** [is_naps2_available], lines 240-256. *)
Definition is_naps2_available (env : Env) : M bool :=
  try_except
    (process <- create_subprocess_exec env version_command ;;
     exit_code <- process_wait env process ;;
     ret (exit_code =? 0)%Z)
    is_OSError
    (fun _ => ret false).

(** [get_scanner_device], lines 259-287.  Leaving the [try] block
    without a [return] and leaving it through the handler both end in
    the final [return None]. *)
Definition get_scanner_device (env : Env) (driver : str) : M (option str) :=
  try_except
    (process <- create_subprocess_exec env (listing_command driver) ;;
     out_err <- process_communicate env process ;;
     exit_code <- process_wait env process ;;
     let stdout := fst out_err in
     if (exit_code =? 0)%Z && nonempty stdout then
       text <- bytes_decode stdout ;;
       let output := strip text in
       if nonempty output
       then ret (Some (strip (hd [] (split NL output))))
       else ret None
     else ret None)
    is_Exception
    (fun e => print (u "Error finding scanner: " ++ exn_msg e) ;; ret None).

(** [f"{file_prefix}*.{file_format}"] *)
Definition search_pattern (file_prefix file_format : str) : str :=
  file_prefix ++ u "*." ++ file_format.

(** [check_for_scanned_files], lines 290-313. *)
Definition check_for_scanned_files (env : Env)
    (output_folder file_prefix file_format : str) : M bool :=
  try_except
    (present <- path_exists env output_folder ;;
     if negb present then ret false
     else
       files <- path_glob env output_folder
                  (search_pattern file_prefix file_format) ;;
       ret (0 <? List.length files)%nat)
    is_Exception
    (fun _ => ret false).

(** Paths of one folder compare by their names under the platform's
    case convention. *)
Definition path_lt (env : Env) (a b : File) : bool :=
  negb (str_leb (normcase env (f_name b)) (normcase env (f_name a))).

Fixpoint insert_sorted (env : Env) (x : File) (l : list File) : list File :=
  match l with
  | [] => [x]
  | y :: l' =>
      if path_lt env y x then y :: insert_sorted env x l'
      else x :: l
  end.

(** [sorted(files)]: a stable sort. *)
Fixpoint sorted (env : Env) (files : list File) : list File :=
  match files with
  | [] => []
  | x :: rest => insert_sorted env x (sorted env rest)
  end.

(** The line printed for one file, line 333. *)
Definition file_line (name : str) (size_kb : Z) : str :=
  u "  " ++ name ++ u " (" ++ str_of_Z_grouped size_kb ++ u " KB)".

(** [show_scan_results], lines 316-339. *)
Definition show_scan_results (env : Env)
    (output_folder file_prefix file_format : str) : M unit :=
  try_except
    (files <- path_glob env output_folder
                (search_pattern file_prefix file_format) ;;
     print (NL :: u "Files created ("
              ++ str_of_Z (Z.of_nat (List.length files)) ++ u "):") ;;
     for_each (sorted env files)
       (fun file_path =>
          size <- path_stat_size env output_folder file_path ;;
          let size_kb := (size / 1024)%Z in
          print (file_line (f_name file_path) size_kb)) ;;
     if nonempty files then
       where_ <- path_absolute env output_folder ;;
       print (NL :: u "All files saved to: " ++ where_)
     else ret tt)
    is_Exception
    (fun e => print (u "Error showing results: " ++ exn_msg e)).

(** The output path handed to the tool, lines 172-176 and 186. *)
Definition build_output_path (output_folder file_prefix file_format : str)
    : str :=
  if str_eqb (lower file_format) (u "pdf")
  then path_join output_folder (file_prefix ++ u "." ++ file_format)
  else path_join output_folder
         (file_prefix ++ u "_$(nnnn)." ++ file_format).

(** The command line of the scan, lines 178-188. *)
Definition scan_arguments (output_folder file_prefix file_format : str)
    (dpi : Z) (color_mode source device_name driver : str) : list str :=
  [u "NAPS2.Console";
   u "--driver"; driver;
   u "--device"; device_name;
   u "--source"; source;
   u "--dpi"; str_of_Z dpi;
   u "--bitdepth"; color_mode;
   u "--output"; build_output_path output_folder file_prefix file_format;
   u "--verbose"].

Definition stream_tag (s : stream) : str :=
  match s with
  | Stdout => u "NAPS2"
  | Stderr => u "ERROR"
  end.

(** One round of the loop of [read_output], lines 208-211, for a
    line that is not the end of the stream. *)
Definition read_output (env : Env) (item : stream * bytes) : M unit :=
  syscall env (Readline (fst item)) ;;
  text <- bytes_decode (snd item) ;;
  print (stream_tag (fst item) ++ u ": " ++ strip text).

(** [asyncio.gather] of the two readers, lines 214-217: the rounds of
    both loops in the order the lines arrive, then the read on each
    stream that finds it closed.  The first exception ends the wait. *)
Definition gather_read_output (env : Env) (process : Run) : M unit :=
  for_each
    (interleave (r_order process)
       (readlines (r_stdout process)) (readlines (r_stderr process)))
    (read_output env) ;;
  syscall env (Readline Stdout) ;;
  syscall env (Readline Stderr).

(** Lines 170-233 of [scan_with_naps2], with the device settled. *)
Definition scan_with_device (env : Env)
    (output_folder file_prefix file_format : str) (dpi : Z)
    (color_mode source device_name driver : str) : M bool :=
  print (u "Scanner: " ++ device_name) ;;
  let arguments :=
    scan_arguments output_folder file_prefix file_format dpi
      color_mode source device_name driver in
  print [] ;;
  print (u "NAPS2 Command:") ;;
  print (join (u " ") arguments) ;;
  print [] ;;
  print (u "Starting scan...") ;;
  print (u "MAKE SURE PAPER IS IN THE ADF TRAY!") ;;
  print [] ;;
  process <- create_subprocess_exec env arguments ;;
  gather_read_output env process ;;
  exit_code <- process_wait env process ;;
  print [] ;;
  print (u "NAPS2 finished with exit code: " ++ str_of_Z exit_code) ;;
  has_files <- check_for_scanned_files env output_folder file_prefix
                 file_format ;;
  if has_files || (exit_code =? 0)%Z then
    show_scan_results env output_folder file_prefix file_format ;;
    ret true
  else
    print (u "No files were created.") ;;
    ret false.

(** [not device_name] for an [Optional[str]]. *)
Definition falsy (d : option str) : bool :=
  match d with
  | Some (_ :: _) => false
  | _ => true
  end.

(** Lines 157-233 of [scan_with_naps2]: what follows the answer of
    the availability check. *)
Definition scan_after_probe (env : Env)
    (output_folder file_prefix file_format : str) (dpi : Z)
    (color_mode source : str) (device_name : option str) (driver : str)
    (available : bool) : M bool :=
  if negb available then
    print (u "ERROR: NAPS2.Console not found in system PATH.") ;;
    print (u "Install NAPS2 from: https://www.naps2.com/download") ;;
    print (u "Or add NAPS2 installation folder to PATH environment variable.") ;;
    ret false
  else
    match device_name with
    | None =>
        found <- get_scanner_device env driver ;;
        if falsy found then
          print (u "ERROR: No scanner found.") ;;
          ret false
        else
          scan_with_device env output_folder file_prefix file_format
            dpi color_mode source
            (match found with Some d => d | None => [] end) driver
    | Some given =>
        scan_with_device env output_folder file_prefix file_format
          dpi color_mode source given driver
    end.

(** The [try] block of [scan_with_naps2], lines 151-233. *)
Definition scan_try_block (env : Env)
    (output_folder file_prefix file_format : str) (dpi : Z)
    (color_mode source : str) (device_name : option str) (driver : str)
    : M bool :=
  path_mkdir env output_folder ;;
  present <- path_exists env output_folder ;;
  (if negb present
   then print (u "Created folder: " ++ output_folder)
   else ret tt) ;;
  available <- is_naps2_available env ;;
  scan_after_probe env output_folder file_prefix file_format dpi color_mode
    source device_name driver available.

(** [scan_with_naps2], lines 124-237. *)
Definition scan_with_naps2 (env : Env)
    (output_folder file_prefix file_format : str) (dpi : Z)
    (color_mode source : str) (device_name : option str) (driver : str)
    : M bool :=
  try_except
    (scan_try_block env output_folder file_prefix file_format dpi
       color_mode source device_name driver)
    is_Exception
    (fun e => print (u "Error during scan: " ++ exn_msg e) ;; ret false).

End Scanner.
Import Scanner.

(** ** The command line *)

Module Cli.

Local Open Scope N_scope.

(** What [parse_args] returns: one attribute per argument of
    [create_argument_parser], lines 69-119. *)
Record Namespace : Type := {
  output : str;
  prefix : str;
  format : str;
  dpi : Z;
  color : str;
  source : str;
  device : option str;
  driver : str
}.

(** The [default=] of each argument; [--device] has none. *)
Definition defaults : Namespace :=
  {| output := u "scanned_pages"; prefix := u "page"; format := u "png";
     dpi := 300; color := u "color"; source := u "feeder";
     device := None; driver := u "wia" |}.

Inductive dest : Type :=
| Output | Prefix | Format | Dpi | Color | Source | Device | Driver.

Definition option_strings : list (str * dest) :=
  [(u "-o", Output); (u "--output", Output);
   (u "-p", Prefix); (u "--prefix", Prefix);
   (u "-f", Format); (u "--format", Format);
   (u "-d", Dpi); (u "--dpi", Dpi);
   (u "-c", Color); (u "--color", Color);
   (u "-s", Source); (u "--source", Source);
   (u "--device", Device);
   (u "--driver", Driver)].

Fixpoint lookup (table : list (str * dest)) (t : str) : option dest :=
  match table with
  | [] => None
  | (name, d) :: rest => if str_eqb name t then Some d else lookup rest t
  end.

(** The help option argparse adds by itself. *)
Definition is_help (t : str) : bool :=
  str_eqb t (u "-h") || str_eqb t (u "--help").

(** The [choices=] of an argument, where it has some. *)
Definition choices (d : dest) : option (list str) :=
  match d with
  | Format => Some [u "png"; u "jpg"; u "jpeg"; u "tiff"; u "bmp"; u "pdf"]
  | Color => Some [u "color"; u "gray"; u "bw"]
  | Source => Some [u "feeder"; u "glass"]
  | Driver => Some [u "wia"; u "twain"]
  | _ => None
  end.

Definition digit (c : N) : option (Decimal.uint -> Decimal.uint) :=
  match c with
  | 48 => Some Decimal.D0 | 49 => Some Decimal.D1 | 50 => Some Decimal.D2
  | 51 => Some Decimal.D3 | 52 => Some Decimal.D4 | 53 => Some Decimal.D5
  | 54 => Some Decimal.D6 | 55 => Some Decimal.D7 | 56 => Some Decimal.D8
  | 57 => Some Decimal.D9
  | _ => None
  end.

Definition is_digit (c : N) : bool :=
  match digit c with Some _ => true | None => false end.

(** Decimal digits, single underscores allowed between two digits. *)
Fixpoint numeral (after_digit : bool) (s : str) : option Decimal.uint :=
  match s with
  | [] => if after_digit then Some Decimal.Nil else None
  | c :: r =>
      if c =? 95 then
        if after_digit then numeral false r else None
      else
        match digit c with
        | Some d => option_map d (numeral true r)
        | None => None
        end
  end.

(** [int(s)] for a text of printable ASCII characters; [None] is
    [ValueError]. *)
Definition py_int (s : str) : option Z :=
  match strip s with
  | 45 :: ds => option_map (fun d => Z.opp (Z.of_uint d)) (numeral false ds)
  | 43 :: ds => option_map Z.of_uint (numeral false ds)
  | ds => option_map Z.of_uint (numeral false ds)
  end.

Definition printable (c : N) : bool := (32 <=? c) && (c <? 127).

(** The texts on which [py_int] stands for [int]: outside printable
    ASCII Python knows further digits and spaces, and recent versions
    refuse numerals of more than 4300 digits. *)
Definition plain_numeral (s : str) : bool :=
  forallb printable s && (List.length s <=? 4300)%nat.

Inductive outcome (A : Type) : Type :=
| Ok (a : A)
| Refused             (* parser.error: usage message, exit status 2 *)
| Unmodelled.         (* a spelling this model takes no position on *)
Arguments Ok {A} a.
Arguments Refused {A}.
Arguments Unmodelled {A}.

Definition set_text (d : dest) (v : str) (ns : Namespace) : Namespace :=
  match d with
  | Output => {| output := v; prefix := prefix ns; format := format ns;
                 dpi := dpi ns; color := color ns; source := source ns;
                 device := device ns; driver := driver ns |}
  | Prefix => {| output := output ns; prefix := v; format := format ns;
                 dpi := dpi ns; color := color ns; source := source ns;
                 device := device ns; driver := driver ns |}
  | Format => {| output := output ns; prefix := prefix ns; format := v;
                 dpi := dpi ns; color := color ns; source := source ns;
                 device := device ns; driver := driver ns |}
  | Color => {| output := output ns; prefix := prefix ns; format := format ns;
                dpi := dpi ns; color := v; source := source ns;
                device := device ns; driver := driver ns |}
  | Source => {| output := output ns; prefix := prefix ns; format := format ns;
                 dpi := dpi ns; color := color ns; source := v;
                 device := device ns; driver := driver ns |}
  | Device => {| output := output ns; prefix := prefix ns; format := format ns;
                 dpi := dpi ns; color := color ns; source := source ns;
                 device := Some v; driver := driver ns |}
  | Driver => {| output := output ns; prefix := prefix ns; format := format ns;
                 dpi := dpi ns; color := color ns; source := source ns;
                 device := device ns; driver := v |}
  | Dpi => ns
  end.

Definition set_dpi (n : Z) (ns : Namespace) : Namespace :=
  {| output := output ns; prefix := prefix ns; format := format ns;
     dpi := n; color := color ns; source := source ns;
     device := device ns; driver := driver ns |}.

(** The store action: convert with [type=], check against
    [choices=], set the attribute.  The DPI argument has [type=int]
    and nothing else. *)
Definition store (d : dest) (v : str) (ns : Namespace) : outcome Namespace :=
  match d with
  | Dpi =>
      if plain_numeral v then
        match py_int v with
        | Some n => Ok (set_dpi n ns)
        | None => Refused
        end
      else Unmodelled
  | _ =>
      match choices d with
      | Some allowed =>
          if existsb (str_eqb v) allowed then Ok (set_text d v ns)
          else Refused
      | None => Ok (set_text d v ns)
      end
  end.

Definition dash_leading (t : str) : bool :=
  match t with 45 :: _ => true | _ => false end.

(** [-] followed by decimal digits: argparse reads such a token as
    an argument, this parser having no option that looks like a
    negative number. *)
Definition negative_number_like (t : str) : bool :=
  match t with
  | 45 :: ((_ :: _) as ds) => forallb is_digit ds
  | _ => false
  end.

(** A token that argparse takes as an argument rather than as an
    option string. *)
Definition argument_like (t : str) : bool :=
  negb (dash_leading t) || str_eqb t (u "-") || negative_number_like t.

(** [name=value] at the first equals sign. *)
Fixpoint split_eq (t : str) : option (str * str) :=
  match t with
  | [] => None
  | c :: r =>
      if c =? 61 then Some ([], r)
      else option_map (fun nv => (c :: fst nv, snd nv)) (split_eq r)
  end.

Inductive parsed : Type :=
| Accepted (ns : Namespace)
| HelpShown           (* help printed, exit status 0 *)
| Rejected            (* usage error, exit status 2 *)
| NotCovered.         (* outside the spellings modelled here *)

(** [parser.parse_args(argv)] for option strings written in full,
    with the value as the next token or after an equals sign.
    Abbreviated long options, a value glued to a short option and
    the [--] separator are not covered.  [extras] records that a
    stray argument was met, which argparse reports once all options
    have been handled. *)
Fixpoint parse_loop (argv : list str) (ns : Namespace) (extras : bool)
    : parsed :=
  match argv with
  | [] => if extras then Rejected else Accepted ns
  | t :: rest =>
      if is_help t then HelpShown
      else
        match lookup option_strings t with
        | Some d =>
            match rest with
            | [] => Rejected
            | v :: rest' =>
                if is_help v then Rejected
                else
                  match lookup option_strings v with
                  | Some _ => Rejected
                  | None =>
                      if argument_like v then
                        match store d v ns with
                        | Ok ns' => parse_loop rest' ns' extras
                        | Refused => Rejected
                        | Unmodelled => NotCovered
                        end
                      else NotCovered
                  end
            end
        | None =>
            if argument_like t then parse_loop rest ns true
            else
              match split_eq t with
              | Some (name, v) =>
                  match lookup option_strings name, v with
                  | Some d, _ :: _ =>
                      match store d v ns with
                      | Ok ns' => parse_loop rest ns' extras
                      | Refused => Rejected
                      | Unmodelled => NotCovered
                      end
                  | _, _ => NotCovered
                  end
              | None => NotCovered
              end
        end
  end.

Definition parse_args (argv : list str) : parsed :=
  parse_loop argv defaults false.

End Cli.
Import Cli.

(** ** Sample environments *)

Module Samples.

Local Open Scope N_scope.

(** A file-name matcher for patterns of literal characters, [*]
    and [?]. *)
Fixpoint wildcard (pattern name : str) : bool :=
  match pattern with
  | [] => negb (nonempty name)
  | c :: pattern' =>
      if c =? 42 then
        (fix star (s : str) : bool :=
           wildcard pattern' s
           || match s with
              | [] => false
              | _ :: s' => star s'
              end) name
      else
        match name with
        | [] => false
        | x :: name' => ((c =? 63) || (c =? x)) && wildcard pattern' name'
        end
  end.

Definition no_fault : World -> op -> option exn := fun _ _ => None.

Definition empty_fs : FS := fun _ => None.

Definition two_pages : list File :=
  [ {| f_name := u "page_0002.png"; f_size := 1500000 |};
    {| f_name := u "notes.txt"; f_size := 10 |};
    {| f_name := u "page_0001.png"; f_size := 2047 |} ].

Definition fs_two_pages : FS :=
  fun p => if str_eqb p (u "out") then Some two_pages else None.

(** A tool that is installed, lists one device with Windows line
    ends, and on a scan writes two pages although it exits with
    status 1. *)
Definition scanning_tool (f : FS) (argv : list str) : Run :=
  match argv with
  | [_; _] =>
      {| r_stdout := b "NAPS2 7.4.3" ++ [x0a]; r_stderr := [];
         r_exit := 0; r_fs := f; r_order := [] |}
  | [_; _; _; _] =>
      {| r_stdout := [x0d; x0a] ++ b "  Xerox WIA" ++ [x0d; x0a]
                     ++ b "Canon" ++ [x0d; x0a];
         r_stderr := []; r_exit := 0; r_fs := f; r_order := [] |}
  | _ =>
      {| r_stdout := b "Scanning page 1" ++ [x0a] ++ b "Scanning page 2"
                     ++ [x0a];
         r_stderr := b "Feeder empty" ++ [x0a];
         r_exit := 1; r_fs := fs_two_pages;
         r_order := [Stdout; Stderr] |}
  end.

Definition home (p : str) : str := u "/home/user/" ++ p.

Definition scanning_env : Env :=
  {| fault := no_fault; tool := scanning_tool; fnmatch := wildcard;
     normcase := fun s => s; absolute := home |}.





(** The output folder cannot be created. *)
Definition mkdir_fails (w : World) (o : op) : option exn :=
  match o with
  | Mkdir _ => Some (Exn PermissionError (u "[Errno 13] Permission denied"))
  | _ => None
  end.

Definition read_only_env : Env :=
  {| fault := mkdir_fails; tool := scanning_tool; fnmatch := wildcard;
     normcase := fun s => s; absolute := home |}.



(** The user interrupts the wrapper while it waits for a child. *)
Definition interrupt (w : World) (o : op) : option exn :=
  match o with
  | Wait => Some (Exn KeyboardInterrupt [])
  | _ => None
  end.

Definition interrupted_env : Env :=
  {| fault := interrupt; tool := scanning_tool; fnmatch := wildcard;
     normcase := fun s => s; absolute := home |}.

Definition start (f : FS) : World :=
  {| fs := f; console := []; launched := [] |}.

End Samples.
Import Samples.

(** ** Vocabulary of the specification *)

Module Spec.






(** The files matching [<prefix>*.<format>] in the output folder. *)
Definition matching_files (env : Env) (f : FS)
    (output_folder file_prefix file_format : str) : list File :=
  fs_glob env f output_folder (search_pattern file_prefix file_format).


(** The lines the summary prints for the files [files] of
    [output_folder]. *)
Definition summary (env : Env) (output_folder : str) (files : list File)
    : list str :=
  (NL :: u "Files created (" ++ str_of_Z (Z.of_nat (List.length files))
      ++ u "):")
  :: map (fun f => file_line (f_name f) (f_size f / 1024)%Z)
       (sorted env files)
  ++ (if nonempty files
      then [NL :: u "All files saved to: " ++ absolute env output_folder]
      else []).


(** No system call fails. *)
Definition no_faults (env : Env) : Prop :=
  forall w o, fault env w o = None.


(** Whatever a system call raises is an [Exception]: an I/O or
    subprocess error, not an interrupt or a cancellation. *)
Definition faults_are_Exceptions (env : Env) : Prop :=
  forall w o e, fault env w o = Some e -> is_Exception e = true.


(** A step keeps [R] and [E] when [R] relates the world before it
    to the world after it and [E] holds of whatever it raises. *)
Definition keeps (R : World -> World -> Prop) (E : exn -> Prop) {A}
    (m : M A) : Prop :=
  forall w,
    R w (snd (m w))
    /\ match fst (m w) with
       | Raise e => E e
       | Ret _ => True
       end.




End Spec.
Import Spec.

(** ** The entry point *)

Module Program.

(** What can leave [main].  The classes of the runtime are kept as
    they are; argparse and the last lines of the script add three. *)
Inductive raised : Type :=
| SystemExit (status : Z)
| AttributeError (msg : str)
| EOFError
| Inner (e : exn).

(** [isinstance(r, KeyboardInterrupt)] *)
Definition raised_KeyboardInterrupt (r : raised) : bool :=
  match r with
  | Inner e =>
      match exn_kind e with
      | KeyboardInterrupt => true
      | _ => false
      end
  | _ => false
  end.

(** [isinstance(r, Exception)] *)
Definition raised_Exception (r : raised) : bool :=
  match r with
  | SystemExit _ => false
  | AttributeError _ => true
  | EOFError => true
  | Inner e => is_Exception e
  end.

(** [str(r)] *)
Definition raised_msg (r : raised) : str :=
  match r with
  | SystemExit status => str_of_Z status
  | AttributeError msg => msg
  | EOFError => u "EOF when reading a line"
  | Inner e => exn_msg e
  end.

Inductive ending (A : Type) : Type :=
| Done (a : A)
| Left (r : raised)
| Uncovered.          (* a command line the parser model does not cover *)
Arguments Done {A} a.
Arguments Left {A} r.
Arguments Uncovered {A}.

Definition P (A : Type) : Type := World -> ending A * World.

Definition done {A} (a : A) : P A := fun w => (Done a, w).

Definition leave {A} (r : raised) : P A := fun w => (Left r, w).

Definition then_ {A B} (m : P A) (k : A -> P B) : P B :=
  fun w =>
    match m w with
    | (Done a, w') => k a w'
    | (Left r, w') => (Left r, w')
    | (Uncovered, w') => (Uncovered, w')
    end.

(** A coroutine of the script awaited from [main]. *)
Definition await {A} (m : M A) : P A :=
  fun w =>
    match m w with
    | (Ret a, w') => (Done a, w')
    | (Raise e, w') => (Left (Inner e), w')
    end.

Definition echo_line (s : str) : P unit := await (print s).

(** [args.help], line 22.  The namespace [parse_args] returns has
    the eight attributes of [Namespace] and no other: argparse
    declares its help action with [default=SUPPRESS], so no [help]
    attribute is ever set, and reading it raises. *)
Definition namespace_help (args : Namespace) : P bool :=
  leave (AttributeError (u "'Namespace' object has no attribute 'help'")).

(** [args.device or 'auto-detect'] *)
Definition device_or_auto (d : option str) : str :=
  match d with
  | Some (c :: r) => c :: r
  | _ => u "auto-detect"
  end.

(** [input()]: [keyboard] tells what the read raises, if anything. *)
Definition input (keyboard : World -> option raised) : P unit :=
  fun w =>
    match keyboard w with
    | Some r => (Left r, w)
    | None => (Done tt, w)
    end.

(** [main], lines 17-45.  The help and usage texts argparse writes
    are not part of the console log. *)
Definition main (env : Env) (keyboard : World -> option raised)
    (argv : list str) : P unit :=
  match parse_args argv with
  | NotCovered => fun w => (Uncovered, w)
  | HelpShown => leave (SystemExit 0)
  | Rejected => leave (SystemExit 2)
  | Accepted args =>
      then_ (namespace_help args) (fun help =>
      if help then done tt
      else
        then_ (echo_line (u "=== MODERN SCANNER WRAPPER ===")) (fun _ =>
        then_ (echo_line (u "Output: " ++ output args)) (fun _ =>
        then_ (echo_line (u "Prefix: " ++ prefix args)) (fun _ =>
        then_ (echo_line (u "Format: " ++ format args)) (fun _ =>
        then_ (echo_line (u "DPI: " ++ str_of_Z (dpi args))) (fun _ =>
        then_ (echo_line (u "Color: " ++ color args)) (fun _ =>
        then_ (echo_line (u "Source: " ++ source args)) (fun _ =>
        then_ (echo_line (u "Device: " ++ device_or_auto (device args)))
          (fun _ =>
        then_ (echo_line (u "Driver: " ++ driver args)) (fun _ =>
        then_ (echo_line []) (fun _ =>
        then_ (await (scan_with_naps2 env (output args) (prefix args)
                        (format args) (dpi args) (color args) (source args)
                        (device args) (driver args))) (fun success =>
        then_ (echo_line
                 (if success
                  then 10003%N :: u " Scan completed successfully!"
                  else 10007%N :: u " Scan failed.")) (fun _ =>
        then_ (echo_line (NL :: u "Press Enter to exit...")) (fun _ =>
        input keyboard))))))))))))))
  end.

(** Lines 342-351: the exit status of the process, [None] where the
    parser model does not cover the command line.  A
    [BaseException] that neither handler takes ends the interpreter
    with status 1. *)
Definition run (env : Env) (keyboard : World -> option raised)
    (argv : list str) (w : World) : option Z * World :=
  match main env keyboard argv w with
  | (Done _, w') => (Some 0%Z, w')
  | (Uncovered, w') => (None, w')
  | (Left r, w') =>
      if raised_KeyboardInterrupt r then
        (Some 1%Z, say w' [NL :: NL :: u "Scan interrupted by user."])
      else if raised_Exception r then
        (Some 1%Z, say w' [NL :: u "Unexpected error: " ++ raised_msg r])
      else
        match r with
        | SystemExit status => (Some status, w')
        | _ => (Some 1%Z, w')
        end
  end.

End Program.
Import Program.

(** ** Further vocabulary *)

Module More.




(** The world differs from an earlier one by printed lines only. *)
Definition only_printed (w w' : World) : Prop :=
  exists lines, w' = say w lines.

(** A grouped numeral without its thousands separators. *)
Definition ungroup (s : str) : str :=
  filter (fun c => negb (c =? 44)%N) s.

(** Nothing was launched between two worlds. *)
Definition same_launches (w w' : World) : Prop := launched w' = launched w.






End More.
Import More.

(** ** Stepping through the monad *)

Ltac run_monad :=
  cbv beta iota zeta delta
    [try_except bind ret raise syscall print get_fs set_fs
     process_wait process_communicate bytes_decode
     create_subprocess_exec path_mkdir path_exists path_glob
     path_stat_size path_absolute] in *;
  cbn [fst snd fs console launched say with_fs log_launch] in *.

Ltac case_step :=
  match goal with
  | |- context [match fault ?e ?w ?o with _ => _ end] =>
      let H := fresh "Hfault" in destruct (fault e w o) eqn:H
  | |- context [match decode ?x with _ => _ end] =>
      let H := fresh "Hdecode" in destruct (decode x) eqn:H
  | |- context [if ?c then _ else _] =>
      let H := fresh "Htest" in destruct c eqn:H
  end; run_monad.

(** ** Sample runs *)

Example strip_sample : strip (u "  Xerox WIA ") = u "Xerox WIA".
Proof. reflexivity. Qed.

Example decode_sample :
  decode [xc3; xa9] = Some [233%N] /\ decode [xed; xa0; x80] = None.
Proof. split; reflexivity. Qed.

Example grouped_sample : str_of_Z_grouped 1234567 = u "1,234,567".
Proof. reflexivity. Qed.

Example parse_sample :
  parse_args [u "-f"; u "pdf"; u "--dpi=600"; u "--device"; u "Xerox"]
  = Accepted
      {| output := u "scanned_pages"; prefix := u "page"; format := u "pdf";
         dpi := 600; color := u "color"; source := u "feeder";
         device := Some (u "Xerox"); driver := u "wia" |}.
Proof. reflexivity. Qed.

Example parse_rejects_sample :
  parse_args [u "-f"; u "gif"] = Rejected
  /\ parse_args [u "-d"; u "high"] = Rejected
  /\ parse_args [u "-h"] = HelpShown.
Proof. repeat split. Qed.

(** A scan that exits with status 1 after writing two pages. *)
Example scan_sample :
  let res :=
    scan_with_naps2 scanning_env (u "out") (u "page") (u "png") 300
      (u "color") (u "feeder") None (u "wia") (start empty_fs) in
  fst res = Ret true
  /\ launched (snd res)
     = [version_command; listing_command (u "wia");
        scan_arguments (u "out") (u "page") (u "png") 300 (u "color")
          (u "feeder") (u "Xerox WIA") (u "wia")]
  /\ console (snd res)
     = [u "Scanner: Xerox WIA"; [];
        u "NAPS2 Command:";
        u "NAPS2.Console --driver wia --device Xerox WIA --source feeder --dpi 300 --bitdepth color --output out/page_$(nnnn).png --verbose";
        []; u "Starting scan..."; u "MAKE SURE PAPER IS IN THE ADF TRAY!";
        []; u "NAPS2: Scanning page 1"; u "ERROR: Feeder empty";
        u "NAPS2: Scanning page 2"; [];
        u "NAPS2 finished with exit code: 1";
        NL :: u "Files created (2):"; u "  page_0001.png (1 KB)";
        u "  page_0002.png (1,464 KB)";
        NL :: u "All files saved to: /home/user/out"].
Proof. repeat split. Qed.

(** ** Facts about text *)

Section TextFacts.

Local Open Scope N_scope.

Lemma lstrip_head s c t : lstrip s = c :: t -> is_space c = false.
Proof.
  induction s as [|a s IH]; simpl; [discriminate|].
  destruct (is_space a) eqn:Ha; [exact IH|].
  intros E; injection E as -> _; exact Ha.
Qed.

Lemma rstrip_last s : forall t c, rstrip s = t ++ [c] -> is_space c = false.
Proof.
  induction s as [|a s IH]; simpl; intros t c E.
  - destruct t; discriminate.
  - destruct (rstrip s) as [|x r] eqn:Er.
    + destruct (is_space a) eqn:Ha; [destruct t; discriminate|].
      destruct t as [|y t]; simpl in E.
      * injection E as <-; exact Ha.
      * injection E as _ E; destruct t; discriminate.
    + destruct t as [|y t]; simpl in E; [discriminate|].
      injection E as _ E. exact (IH _ _ E).
Qed.

Lemma rstrip_cons_keep c s :
  is_space c = false -> exists t, rstrip (c :: s) = c :: t.
Proof.
  intros Hc; simpl. destruct (rstrip s); rewrite ?Hc; eauto.
Qed.

Lemma rstrip_head s c t : rstrip s = c :: t -> exists s', s = c :: s'.
Proof.
  destruct s as [|a s]; simpl; [discriminate|].
  destruct (rstrip s); [destruct (is_space a)|]; intros E;
    try discriminate; injection E as -> _; eauto.
Qed.

Lemma strip_head s c t : strip s = c :: t -> is_space c = false.
Proof.
  unfold strip; intros E.
  destruct (rstrip_head _ _ _ E) as [s' Hs']. exact (lstrip_head _ _ _ Hs').
Qed.

Lemma strip_last s t c : strip s = t ++ [c] -> is_space c = false.
Proof. unfold strip; apply rstrip_last. Qed.

Lemma strip_cons_keep c s :
  is_space c = false -> exists t, strip (c :: s) = c :: t.
Proof.
  intros Hc; unfold strip; simpl; rewrite Hc. apply rstrip_cons_keep, Hc.
Qed.

Lemma split_head_cons sep c s :
  (c =? sep) = false -> exists l, hd [] (split sep (c :: s)) = c :: l.
Proof.
  intros Hc; simpl; rewrite Hc. destruct (split sep s); simpl; eauto.
Qed.

Lemma not_space_not_NL c : is_space c = false -> (c =? NL) = false.
Proof.
  intros Hc. destruct (N.eqb_spec c NL) as [->|]; [discriminate | reflexivity].
Qed.

(** The name taken from a listing that is not blank. *)
Lemma first_line_clean text :
  nonempty (strip text) = true ->
  let d := strip (hd [] (split NL (strip text))) in
  d <> []
  /\ (forall c t, d = c :: t -> is_space c = false)
  /\ (forall t c, d = t ++ [c] -> is_space c = false).
Proof.
  intros Hne d; subst d.
  destruct (strip text) as [|c t] eqn:Es; [discriminate|].
  pose proof (strip_head _ _ _ Es) as Hc.
  destruct (split_head_cons NL c t (not_space_not_NL _ Hc)) as [l ->].
  destruct (strip_cons_keep c l Hc) as [t' Et'].
  split; [rewrite Et'; discriminate|].
  split; [apply strip_head | apply strip_last].
Qed.







End TextFacts.

(** ** The output path *)

Section OutputPath.

Variables folder prefix : str.









End OutputPath.



(** ** The device listing *)

Section ListingFacts.

Local Open Scope N_scope.

Lemma hd_split_cons sep a s :
  hd [] (split sep (a :: s))
  = if a =? sep then [] else a :: hd [] (split sep s).
Proof.
  simpl. destruct (a =? sep); [reflexivity|].
  destruct (split sep s); reflexivity.
Qed.







End ListingFacts.

(** ** Running the helpers *)

Section Helpers.

Variable env : Env.

Lemma available_world w :
  launched (snd (is_naps2_available env w)) = launched w ++ [version_command]
  /\ console (snd (is_naps2_available env w)) = console w.
Proof.
  unfold is_naps2_available. run_monad. repeat case_step; split; reflexivity.
Qed.




Lemma get_scanner_device_inv driver w :
  let r := tool env (fs w) (listing_command driver) in
  let res := get_scanner_device env driver w in
  launched (snd res) = launched w ++ [listing_command driver]
  /\ match fst res with
     | Ret (Some d) =>
         r_exit r = 0%Z
         /\ exists text, decode (r_stdout r) = Some text
            /\ nonempty (strip text) = true
            /\ d = strip (hd [] (split NL (strip text)))
     | Ret None => True
     | Raise e => is_Exception e = false
     end.
Proof.
  intros r res; subst r res. unfold get_scanner_device. run_monad.
  repeat case_step; (split; [reflexivity|]); auto.
  apply andb_prop in Htest; destruct Htest as [Hz _].
  split; [now apply Z.eqb_eq|].
  eexists; split; [reflexivity|]; split; [assumption|reflexivity].
Qed.


End Helpers.

(** C9.  A device name returned by the device lookup is not empty and
    neither starts nor ends with white space. *)
Theorem C9_device_name_trimmed env driver w d :
  fst (get_scanner_device env driver w) = Ret (Some d) ->
  d <> []
  /\ (forall c t, d = c :: t -> is_space c = false)
  /\ (forall t c, d = t ++ [c] -> is_space c = false).
Proof.
  intros E.
  destruct (get_scanner_device_inv env driver w) as [_ H].
  rewrite E in H. destruct H as [_ [text [_ [Hne ->]]]].
  exact (first_line_clean text Hne).
Qed.

Lemma C9_device_name_trimmed_witness :
  fst (get_scanner_device scanning_env (u "wia") (start empty_fs))
    = Ret (Some (u "Xerox WIA"))
  /\ u "Xerox WIA" <> []
  /\ (forall c t, u "Xerox WIA" = c :: t -> is_space c = false)
  /\ (forall t c, u "Xerox WIA" = t ++ [c] -> is_space c = false).
Proof.
  assert (fst (get_scanner_device scanning_env (u "wia") (start empty_fs))
          = Ret (Some (u "Xerox WIA"))) as E by reflexivity.
  split; [exact E|].
  exact (C9_device_name_trimmed scanning_env (u "wia") (start empty_fs)
           (u "Xerox WIA") E).
Defined.

(** ** Properties kept by every step *)

Section Invariants.

Variable env : Env.

(** [R] relates the world before a step to the world after it and
    [E] holds of what a step may raise. *)
Variable R : World -> World -> Prop.
Variable E : exn -> Prop.

Hypothesis R_refl : forall w, R w w.
Hypothesis R_trans : forall a b c, R a b -> R b c -> R a c.
Hypothesis R_say : forall w lines, R w (say w lines).
Hypothesis E_fault : forall w o e, fault env w o = Some e -> E e.
Hypothesis E_decode : forall msg, E (Exn UnicodeDecodeError msg).

Lemma keeps_ret {A} (a : A) : keeps R E (ret a).
Proof. intros w; split; [apply R_refl | exact I]. Qed.

Lemma keeps_bind {A B} (m : M A) (k : A -> M B) :
  keeps R E m -> (forall a, keeps R E (k a)) -> keeps R E (bind m k).
Proof.
  intros Hm Hk w. unfold bind. specialize (Hm w).
  destruct (m w) as [[a|e] w1]; cbn [fst snd] in *.
  - destruct Hm as [Hr _]. specialize (Hk a w1).
    destruct (k a w1) as [r w2]; cbn [fst snd] in *.
    destruct Hk as [Hr2 He]. split; [exact (R_trans _ _ _ Hr Hr2) | exact He].
  - exact Hm.
Qed.

Lemma keeps_try {A} (body : M A) classes handler :
  keeps R E body -> (forall e, keeps R E (handler e)) ->
  keeps R E (try_except body classes handler).
Proof.
  intros Hb Hh w. unfold try_except. specialize (Hb w).
  destruct (body w) as [[a|e] w1]; cbn [fst snd] in *; [exact Hb|].
  destruct (classes e); [|exact Hb].
  destruct Hb as [Hr _]. specialize (Hh e w1).
  destruct (handler e w1) as [r w2]; cbn [fst snd] in *.
  destruct Hh as [Hr2 He]. split; [exact (R_trans _ _ _ Hr Hr2) | exact He].
Qed.

Lemma keeps_print s : keeps R E (print s).
Proof. intros w; split; [apply R_say | exact I]. Qed.

Lemma keeps_syscall o : keeps R E (syscall env o).
Proof.
  intros w. unfold syscall. destruct (fault env w o) eqn:Hf; cbn [fst snd].
  - split; [apply R_refl | exact (E_fault _ _ _ Hf)].
  - split; [apply R_refl | exact I].
Qed.

Lemma keeps_get_fs : keeps R E get_fs.
Proof. intros w; split; [apply R_refl | exact I]. Qed.

Lemma keeps_decode bs : keeps R E (bytes_decode bs).
Proof.
  unfold bytes_decode. destruct (decode bs).
  - apply keeps_ret.
  - intros w; split; [apply R_refl | apply E_decode].
Qed.

Lemma keeps_for_each {X} (xs : list X) body :
  (forall x, keeps R E (body x)) -> keeps R E (for_each xs body).
Proof.
  intros Hb. induction xs as [|x xs IH]; cbn [for_each].
  - apply keeps_ret.
  - apply keeps_bind; [apply Hb | intros _; exact IH].
Qed.

(** Steps that replace the file system or launch a command. *)
Hypothesis R_fs : forall w f, R w (with_fs w f).
Hypothesis R_launch : forall w argv, R w (log_launch w argv).

Lemma keeps_set_fs f : keeps R E (set_fs f).
Proof. intros w; split; [apply R_fs | exact I]. Qed.

Lemma keeps_exec argv : keeps R E (create_subprocess_exec env argv).
Proof.
  intros w. unfold create_subprocess_exec.
  destruct (fault env (log_launch w argv) (Exec argv)) eqn:Hf; cbn [fst snd].
  - split; [apply R_launch | exact (E_fault _ _ _ Hf)].
  - split; [|exact I].
    exact (R_trans _ _ _ (R_launch w argv) (R_fs _ _)).
Qed.

Ltac keeps_step :=
  first
    [ apply keeps_ret
    | apply keeps_print
    | apply keeps_syscall
    | apply keeps_get_fs
    | apply keeps_set_fs
    | apply keeps_decode
    | apply keeps_exec
    | apply keeps_for_each; intros ?
    | apply keeps_bind; [|intros ?]
    | apply keeps_try; [|intros ?]
    | match goal with
      | |- keeps R E (if ?c then _ else _) => destruct c
      | |- keeps R E (match ?x with _ => _ end) => destruct x
      end ].

Lemma keeps_is_naps2_available : keeps R E (is_naps2_available env).
Proof. unfold is_naps2_available, process_wait. repeat keeps_step. Qed.

Lemma keeps_get_scanner_device driver : keeps R E (get_scanner_device env driver).
Proof.
  unfold get_scanner_device, process_wait, process_communicate.
  repeat keeps_step.
Qed.

Lemma keeps_check folder prefix fmt :
  keeps R E (check_for_scanned_files env folder prefix fmt).
Proof.
  unfold check_for_scanned_files, path_exists, path_glob. repeat keeps_step.
Qed.

Lemma keeps_show folder prefix fmt :
  keeps R E (show_scan_results env folder prefix fmt).
Proof.
  unfold show_scan_results, path_glob, path_stat_size, path_absolute.
  repeat keeps_step.
Qed.

Lemma keeps_gather process : keeps R E (gather_read_output env process).
Proof. unfold gather_read_output, read_output. repeat keeps_step. Qed.

Lemma keeps_scan_with_device folder prefix fmt dpi color source device driver :
  keeps R E (scan_with_device env folder prefix fmt dpi color source device
           driver).
Proof.
  unfold scan_with_device, process_wait.
  repeat first [ apply keeps_check | apply keeps_show | apply keeps_gather
               | keeps_step ].
Qed.

Lemma keeps_scan_after_probe folder prefix fmt dpi color source device
    driver available :
  keeps R E (scan_after_probe env folder prefix fmt dpi color source device
           driver available).
Proof.
  unfold scan_after_probe.
  repeat first [ apply keeps_get_scanner_device
               | apply keeps_scan_with_device
               | keeps_step ].
Qed.

Lemma keeps_scan_try_block folder prefix fmt dpi color source device driver :
  keeps R E (scan_try_block env folder prefix fmt dpi color source device
           driver).
Proof.
  unfold scan_try_block, path_mkdir, path_exists.
  repeat first [ apply keeps_is_naps2_available
               | apply keeps_scan_after_probe
               | keeps_step ].
Qed.

Lemma keeps_scan_with_naps2 folder prefix fmt dpi color source device driver :
  keeps R E (scan_with_naps2 env folder prefix fmt dpi color source device
           driver).
Proof.
  unfold scan_with_naps2.
  repeat first [ apply keeps_scan_try_block | keeps_step ].
Qed.

End Invariants.

(** ** Runs without failing system calls *)

Section NoFaults.

Variable env : Env.
Hypothesis calm : no_faults env.

Lemma say_nil w : say w [] = w.
Proof. destruct w; unfold say; cbn. now rewrite app_nil_r. Qed.

Lemma say_say w a b : say (say w a) b = say w (a ++ b).
Proof. unfold say; cbn. now rewrite app_assoc. Qed.

Lemma for_each_says {X} (body : X -> M unit) (line : X -> str) xs :
  (forall x w, In x xs -> body x w = (Ret tt, say w [line x])) ->
  forall w, for_each xs body w = (Ret tt, say w (map line xs)).
Proof.
  induction xs as [|x xs IH]; intros Hb w; cbn [for_each map].
  - unfold ret. now rewrite say_nil.
  - unfold bind. rewrite (Hb x w (or_introl eq_refl)).
    rewrite IH by (intros y w' Hy; apply Hb; now right).
    now rewrite say_say.
Qed.



Lemma nonempty_length {X} (l : list X) :
  (0 <? List.length l)%nat = nonempty l.
Proof. now destruct l. Qed.

Lemma check_no_faults folder prefix fmt w :
  check_for_scanned_files env folder prefix fmt w
  = (Ret (nonempty (matching_files env (fs w) folder prefix fmt)), w).
Proof.
  unfold check_for_scanned_files, matching_files. run_monad.
  rewrite !calm. destruct (fs w folder) eqn:Ef; cbn [negb].
  - now rewrite calm, nonempty_length.
  - unfold fs_glob. now rewrite Ef.
Qed.

Lemma show_no_faults folder prefix fmt w :
  show_scan_results env folder prefix fmt w
  = (Ret tt,
     say w (summary env folder (matching_files env (fs w) folder prefix fmt))).
Proof.
  unfold show_scan_results, matching_files, summary. run_monad.
  rewrite calm.
  set (files := fs_glob env (fs w) folder (search_pattern prefix fmt)).
  rewrite (for_each_says _
             (fun f => file_line (f_name f) (f_size f / 1024)%Z)).
  - destruct (nonempty files); run_monad; rewrite ?calm, !say_say;
      cbn [app]; rewrite ?app_nil_r, <- ?app_assoc; reflexivity.
  - intros f w' _. run_monad. now rewrite calm.
Qed.





End NoFaults.

Section ScanRuns.

Variable env : Env.
Variables output_folder file_prefix file_format : str.
Variable dpi : Z.
Variables color_mode source driver : str.

Lemma str_eqb_refl s : str_eqb s s = true.
Proof.
  induction s as [|c s IH]; cbn; [reflexivity|]. now rewrite N.eqb_refl.
Qed.

Lemma fs_mkdir_present f folder :
  match fs_mkdir f folder folder with Some _ => true | None => false end = true.
Proof.
  unfold fs_mkdir. destruct (f folder) eqn:E; [now rewrite E|].
  now rewrite str_eqb_refl.
Qed.


End ScanRuns.

(** ** What every run keeps *)




Section OnlyExceptions.

Variable env : Env.
Hypothesis tame : faults_are_Exceptions env.


Lemma check_returns folder prefix fmt w :
  exists found w',
    check_for_scanned_files env folder prefix fmt w = (Ret found, w').
Proof.
  pose proof (keeps_check env (fun _ _ => True)
                (fun e => is_Exception e = true)) as K.
  unfold keeps in K.
  specialize (K (fun _ => I) (fun _ _ _ _ _ => I) tame
                folder prefix fmt w).
  revert K. unfold check_for_scanned_files, try_except.
  destruct (bind _ _ w) as [[found|e] w']; cbn [fst snd]; intros [_ K].
  - eauto.
  - destruct (is_Exception e) eqn:He; [unfold ret; eauto|].
    cbn [fst] in K. congruence.
Qed.



End OnlyExceptions.


(** ** The scan operation *)



Section CompletedRuns.

Variable env : Env.
Hypothesis calm : no_faults env.
Variables folder prefix fmt : str.
Variable dpi : Z.
Variables color source driver : str.




End CompletedRuns.









(** An interrupt is no [Exception]: it leaves the scan operation. *)
Example interrupt_escapes :
  fst (scan_with_naps2 interrupted_env (u "out") (u "page") (u "png") 300
         (u "color") (u "feeder") None (u "wia") (start empty_fs))
  = Raise (Exn KeyboardInterrupt []).
Proof. reflexivity. Qed.


(** ** The summary *)

Section Sorting.

Local Open Scope N_scope.



Variable env : Env.









End Sorting.



(** C10.  On one state of the file system the file check answers
    true exactly when the enumeration of <prefix>*.<format> in the
    output folder, the one the summary prints, yields a file. *)
Theorem C10_check_agrees_with_summary env folder prefix fmt w :
  (fault env w (Exists folder) = None ->
   (fst (check_for_scanned_files env folder prefix fmt w) = Ret true
    <-> exists f rest,
          fst (path_glob env folder (search_pattern prefix fmt) w)
          = Ret (f :: rest)))
  /\ (no_faults env ->
      let files := matching_files env (fs w) folder prefix fmt in
      fst (path_glob env folder (search_pattern prefix fmt) w) = Ret files
      /\ console (snd (show_scan_results env folder prefix fmt w))
         = console w ++ summary env folder files
      /\ (fst (check_for_scanned_files env folder prefix fmt w) = Ret true
          <-> files <> [])).
Proof.
  split.
  - intros Hx. unfold check_for_scanned_files. run_monad. rewrite Hx.
    destruct (fs w folder) as [entries|] eqn:Ef; cbn [negb].
    + destruct (fault env w (Glob folder (search_pattern prefix fmt)))
        as [e|]; cbn [fst].
      * split.
        -- destruct (is_Exception e); discriminate.
        -- intros [f [rest H]]; discriminate.
      * rewrite nonempty_length.
        destruct (fs_glob env (fs w) folder (search_pattern prefix fmt))
          as [|f rest]; cbn [nonempty]; split.
        -- discriminate.
        -- intros [f [rest H]]; discriminate.
        -- intros _; eauto.
        -- reflexivity.
    + split; [discriminate|].
      intros [f [rest H]]. revert H.
      destruct (fault env w (Glob folder (search_pattern prefix fmt)));
        cbn [fst]; [discriminate|].
      unfold fs_glob. rewrite Ef. discriminate.
  - intros calm files. split; [|split].
    + unfold path_glob. run_monad. now rewrite calm.
    + now rewrite (show_no_faults env calm).
    + rewrite (check_no_faults env calm). cbn [fst].
      fold files. destruct files; cbn [nonempty]; split;
        try discriminate; try reflexivity.
      intros H; now contradiction H.
Qed.

Lemma C10_check_agrees_with_summary_witness :
  no_faults scanning_env
  /\ fst (check_for_scanned_files scanning_env (u "out") (u "page")
            (u "png") (start fs_two_pages))
     = Ret true
  /\ fst (path_glob scanning_env (u "out")
            (search_pattern (u "page") (u "png")) (start fs_two_pages))
     = Ret [ {| f_name := u "page_0002.png"; f_size := 1500000 |};
             {| f_name := u "page_0001.png"; f_size := 2047 |} ].
Proof.
  assert (no_faults scanning_env) as Hcalm by (intros w o; reflexivity).
  split; [exact Hcalm|].
  destruct (C10_check_agrees_with_summary scanning_env (u "out") (u "page")
              (u "png") (start fs_two_pages)) as [_ H].
  destruct (H Hcalm) as [Hglob [_ Hcheck]].
  split; [|exact Hglob].
  apply Hcheck. vm_compute. discriminate.
Defined.

(** ** The DPI argument *)

Section DpiArgument.

Local Open Scope N_scope.

Lemma lstrip_id s :
  forallb (fun c => negb (is_space c)) s = true -> lstrip s = s.
Proof.
  destruct s as [|c s]; cbn; [reflexivity|].
  intros H. apply andb_prop in H. destruct H as [Hc _].
  apply negb_true_iff in Hc. now rewrite Hc.
Qed.

Lemma rstrip_id s :
  forallb (fun c => negb (is_space c)) s = true -> rstrip s = s.
Proof.
  induction s as [|c s IH]; cbn; [reflexivity|].
  intros H. apply andb_prop in H. destruct H as [Hc Hs].
  apply negb_true_iff in Hc. rewrite (IH Hs), Hc. now destruct s.
Qed.

Lemma strip_id s :
  forallb (fun c => negb (is_space c)) s = true -> strip s = s.
Proof. intros H. unfold strip. rewrite (lstrip_id s H). exact (rstrip_id s H). Qed.

Lemma codes_no_space d :
  forallb (fun c => negb (is_space c)) (uint_codes d) = true.
Proof. induction d; cbn [uint_codes forallb]; try rewrite IHd; reflexivity. Qed.




Lemma numeral_codes d : numeral true (uint_codes d) = Some d.
Proof. induction d; cbn; try rewrite IHd; reflexivity. Qed.

Lemma numeral_codes_first d : d <> Decimal.Nil -> numeral false (uint_codes d) = Some d.
Proof.
  destruct d; [contradiction| | | | | | | | | |]; intros _; cbn;
    rewrite numeral_codes; reflexivity.
Qed.

Lemma py_int_codes d :
  d <> Decimal.Nil -> py_int (uint_codes d) = Some (Z.of_uint d).
Proof.
  intros Hd. unfold py_int. rewrite (strip_id _ (codes_no_space d)).
  pose proof (numeral_codes_first d Hd) as Hn.
  destruct d; [contradiction| | | | | | | | | |]; cbn [uint_codes] in *;
    rewrite Hn; reflexivity.
Qed.

Lemma py_int_minus_codes d :
  d <> Decimal.Nil ->
  py_int (45 :: uint_codes d) = Some (Z.opp (Z.of_uint d)).
Proof.
  intros Hd. unfold py_int.
  rewrite (strip_id (45 :: uint_codes d)) by (cbn; apply codes_no_space).
  now rewrite (numeral_codes_first d Hd).
Qed.





(** [str(n)] is read back by [int] as [n]. *)
Lemma py_int_str_of_Z n : py_int (str_of_Z n) = Some n.
Proof.
  unfold str_of_Z. pose proof (DecimalZ.of_to n) as Hn.
  destruct n as [|p|p]; cbn [Z.to_int] in *.
  - reflexivity.
  - rewrite (py_int_codes _ (DecimalPos.Unsigned.to_uint_nonnil p)).
    f_equal. exact Hn.
  - rewrite (py_int_minus_codes _ (DecimalPos.Unsigned.to_uint_nonnil p)).
    f_equal. exact Hn.
Qed.







End DpiArgument.




(** ** The entry point never scans *)

(** X1.  On every command line the parser model covers, the program
    ends without having launched a command or touched the file
    system; a command line the parser accepts ends in the attribute
    error of line 22, reported as an unexpected error with exit
    status 1, and only a request for help ends with status 0. *)
Theorem X1_program_never_scans env keyboard argv w :
  (forall status w',
     run env keyboard argv w = (Some status, w') ->
     launched w' = launched w /\ fs w' = fs w)
  /\ (forall args,
        parse_args argv = Accepted args ->
        run env keyboard argv w
        = (Some 1%Z,
           say w [NL :: u "Unexpected error: 'Namespace' object has no attribute 'help'"]))
  /\ (forall w',
        run env keyboard argv w = (Some 0%Z, w') ->
        parse_args argv = HelpShown).
Proof.
  unfold run, main.
  destruct (parse_args argv) as [args| | |]; cbn; (split; [|split]);
    try (intros status w' H; injection H as _ <-; split; reflexivity);
    try (intros args' H; discriminate || reflexivity);
    try (intros status w' H; discriminate);
    try (intros w' H; discriminate || reflexivity).
Qed.

Lemma X1_program_never_scans_witness :
  parse_args [u "-f"; u "pdf"] = Accepted (set_text Format (u "pdf") defaults)
  /\ fst (run scanning_env (fun _ => None) [u "-f"; u "pdf"] (start empty_fs))
     = Some 1%Z.
Proof.
  split; [reflexivity|].
  rewrite (proj1 (proj2 (X1_program_never_scans scanning_env
                           (fun _ => None) [u "-f"; u "pdf"]
                           (start empty_fs)))
             (set_text Format (u "pdf") defaults) eq_refl).
  reflexivity.
Defined.

(** ** The file check and the summary *)

Lemma check_world env folder prefix fmt w :
  snd (check_for_scanned_files env folder prefix fmt w) = w.
Proof.
  unfold check_for_scanned_files. run_monad.
  repeat case_step; reflexivity.
Qed.

(** X2.  The file check changes nothing: it prints nothing, launches
    nothing and leaves the file system as it is.  When system calls
    fail with an [Exception] it still answers, and for a folder that
    does not exist the answer is false. *)
Theorem X2_check_is_read_only env folder prefix fmt w :
  snd (check_for_scanned_files env folder prefix fmt w) = w
  /\ (faults_are_Exceptions env ->
      (exists found,
         fst (check_for_scanned_files env folder prefix fmt w) = Ret found)
      /\ (fs w folder = None ->
          fst (check_for_scanned_files env folder prefix fmt w) = Ret false)).
Proof.
  split; [apply check_world|]. intros tame. split.
  - destruct (check_returns env tame folder prefix fmt w) as [found [w' H]].
    exists found. now rewrite H.
  - intros Hnone. unfold check_for_scanned_files. run_monad.
    destruct (fault env w (Exists folder)) as [e|] eqn:Hf.
    + now rewrite (tame _ _ _ Hf).
    + now rewrite Hnone.
Qed.

Lemma X2_check_is_read_only_witness :
  faults_are_Exceptions read_only_env
  /\ fst (check_for_scanned_files read_only_env (u "out") (u "page")
            (u "png") (start empty_fs))
     = Ret false.
Proof.
  assert (faults_are_Exceptions read_only_env) as Htame.
  { intros w o e. destruct o; cbn; try discriminate.
    intros H; injection H as <-; reflexivity. }
  split; [exact Htame|].
  exact (proj2 (proj2 (X2_check_is_read_only read_only_env (u "out")
                         (u "page") (u "png") (start empty_fs)) Htame)
           eq_refl).
Defined.

Lemma only_printed_refl w : only_printed w w.
Proof. exists []. now rewrite say_nil. Qed.

Lemma only_printed_trans a b c :
  only_printed a b -> only_printed b c -> only_printed a c.
Proof.
  intros [l ->] [m ->]. exists (l ++ m). apply say_say.
Qed.

Lemma show_only_prints env folder prefix fmt w :
  only_printed w (snd (show_scan_results env folder prefix fmt w)).
Proof.
  apply (keeps_show env only_printed (fun _ => True)).
  - exact only_printed_refl.
  - exact only_printed_trans.
  - intros w0 lines; now exists lines.
  - trivial.
Qed.

(** X3.  The summary only prints: the world after it is the world
    before it with lines added to the console.  When the
    enumeration fails with an [Exception] the one line added is the
    error message; when no file matches, the one line added is the
    count of zero, and the folder is not named. *)
Theorem X3_summary_only_prints env folder prefix fmt w :
  only_printed w (snd (show_scan_results env folder prefix fmt w))
  /\ (forall e,
        fault env w (Glob folder (search_pattern prefix fmt)) = Some e ->
        is_Exception e = true ->
        show_scan_results env folder prefix fmt w
        = (Ret tt, say w [u "Error showing results: " ++ exn_msg e]))
  /\ (no_faults env ->
      matching_files env (fs w) folder prefix fmt = [] ->
      show_scan_results env folder prefix fmt w
      = (Ret tt, say w [NL :: u "Files created (0):"])).
Proof.
  split; [apply show_only_prints|]. split.
  - intros e Hf He. unfold show_scan_results. run_monad.
    now rewrite Hf, He.
  - intros calm Hnone. rewrite (show_no_faults env calm).
    now rewrite Hnone.
Qed.

Lemma X3_summary_only_prints_witness :
  no_faults scanning_env
  /\ show_scan_results scanning_env (u "out") (u "page") (u "pdf")
       (start fs_two_pages)
     = (Ret tt, say (start fs_two_pages) [NL :: u "Files created (0):"]).
Proof.
  assert (no_faults scanning_env) as Hcalm by (intros w o; reflexivity).
  split; [exact Hcalm|].
  exact (proj2 (proj2 (X3_summary_only_prints scanning_env (u "out")
                         (u "page") (u "pdf") (start fs_two_pages)))
           Hcalm eq_refl).
Defined.

(** ** The echo of the child's output *)






(** ** The command line of the scan *)


(** ** The probe and the device listing *)




(** ** Where a device name comes from *)

Section Pieces.

Local Open Scope N_scope.

Lemma lstrip_piece s : exists pre, s = pre ++ lstrip s.
Proof.
  induction s as [|c t [pre IH]]; [now exists []|].
  cbn [lstrip]. destruct (is_space c).
  - exists (c :: pre). cbn. now f_equal.
  - now exists [].
Qed.

Lemma rstrip_piece s : exists post, s = rstrip s ++ post.
Proof.
  induction s as [|c t [post IH]]; [now exists []|].
  cbn [rstrip]. destruct (rstrip t) as [|x r] eqn:Er.
  - destruct (is_space c).
    + now exists (c :: t).
    + exists post. cbn in *. now f_equal.
  - exists post. cbn in *. now f_equal.
Qed.

Lemma first_line_piece s :
  (exists post, s = hd [] (split NL s) ++ post)
  /\ ~ In NL (hd [] (split NL s)).
Proof.
  induction s as [|c t [[post IH] Hno]].
  - split; [now exists []|]. cbn. tauto.
  - rewrite hd_split_cons. destruct (N.eqb_spec c NL) as [->|Hc].
    + split; [now exists (NL :: t)|]. cbn. tauto.
    + split.
      * exists post. cbn. now f_equal.
      * intros [H|H]; [now apply Hc|now apply Hno].
Qed.

Lemma strip_piece s : exists pre post, s = pre ++ strip s ++ post.
Proof.
  unfold strip. destruct (lstrip_piece s) as [pre Hpre].
  destruct (rstrip_piece (lstrip s)) as [post Hpost].
  exists pre, post. now rewrite <- Hpost.
Qed.

Lemma device_piece text :
  let d := strip (hd [] (split NL (strip text))) in
  ~ In NL d /\ exists pre post, text = pre ++ d ++ post.
Proof.
  intros d. subst d.
  destruct (strip_piece text) as [p1 [q1 H1]].
  destruct (first_line_piece (strip text)) as [[q2 H2] Hno].
  destruct (strip_piece (hd [] (split NL (strip text)))) as [p3 [q3 H3]].
  split.
  - intros Hin. apply Hno. rewrite H3.
    apply in_or_app; right. apply in_or_app; now left.
  - exists (p1 ++ p3), (q3 ++ q2 ++ q1).
    rewrite H1 at 1. rewrite H2 at 1. rewrite H3 at 1.
    now rewrite <- !app_assoc.
Qed.

End Pieces.

(** X8.  A device name the lookup returns is one line of what the
    listing wrote: it holds no line feed, and it is a contiguous
    piece of the decoded standard output of the listing command,
    which ended with status zero. *)
Theorem X8_device_is_a_listed_line env driver w d :
  fst (get_scanner_device env driver w) = Ret (Some d) ->
  let r := tool env (fs w) (listing_command driver) in
  r_exit r = 0%Z
  /\ ~ In NL d
  /\ exists text pre post,
       decode (r_stdout r) = Some text /\ text = pre ++ d ++ post.
Proof.
  intros E r. subst r.
  destruct (get_scanner_device_inv env driver w) as [_ H].
  rewrite E in H. destruct H as [Hx [text [Hd [_ ->]]]].
  destruct (device_piece text) as [Hno [pre [post Hp]]].
  split; [exact Hx|]. split; [exact Hno|].
  exists text, pre, post. now split.
Qed.

Lemma X8_device_is_a_listed_line_witness :
  fst (get_scanner_device scanning_env (u "wia") (start empty_fs))
    = Ret (Some (u "Xerox WIA"))
  /\ ~ In NL (u "Xerox WIA").
Proof.
  split; [reflexivity|].
  exact (proj1 (proj2 (X8_device_is_a_listed_line scanning_env (u "wia")
                         (start empty_fs) (u "Xerox WIA") eq_refl))).
Defined.

(** ** The values a parsed command line can hold *)

Section Choices.

Local Open Scope N_scope.






End Choices.





(** ** The commands a scan launches *)

Section Launches.

Variable env : Env.

Lemma same_launches_trans a b c :
  same_launches a b -> same_launches b c -> same_launches a c.
Proof. unfold same_launches. congruence. Qed.

Lemma gather_launches process w :
  launched (snd (gather_read_output env process w)) = launched w.
Proof.
  apply (keeps_gather env same_launches (fun _ => True));
    try exact same_launches_trans; try reflexivity; trivial.
Qed.

Lemma show_launches folder prefix fmt w :
  launched (snd (show_scan_results env folder prefix fmt w)) = launched w.
Proof.
  destruct (show_only_prints env folder prefix fmt w) as [lines ->].
  reflexivity.
Qed.

Lemma scan_with_device_launches folder prefix fmt dpi color source device
    driver w :
  launched (snd (scan_with_device env folder prefix fmt dpi color source
                   device driver w))
  = launched w
    ++ [scan_arguments folder prefix fmt dpi color source device driver].
Proof.
  unfold scan_with_device. run_monad.
  destruct (fault env _ (Exec _)); [reflexivity|].
  match goal with
  | |- context [gather_read_output env ?p ?w0] =>
      pose proof (gather_launches p w0) as Hg;
      destruct (gather_read_output env p w0) as [[[]|e] w1]
  end; cbn [fst snd launched with_fs log_launch say] in *; [|exact Hg].
  destruct (fault env w1 Wait); cbn [fst snd]; [exact Hg|].
  match goal with
  | |- context [check_for_scanned_files env ?a ?b ?c ?w0] =>
      pose proof (check_world env a b c w0) as Hc;
      destruct (check_for_scanned_files env a b c w0) as [[found|e] w2]
  end; cbn [fst snd launched with_fs log_launch say] in *; subst w2;
    [|exact Hg].
  destruct (found || _); cbn [fst snd launched say]; [|exact Hg].
  match goal with
  | |- context [show_scan_results env ?a ?b ?c ?w0] =>
      pose proof (show_launches a b c w0) as Hs;
      destruct (show_scan_results env a b c w0) as [[[]|e] w3]
  end; cbn [fst snd launched with_fs log_launch say] in *;
    now rewrite Hs.
Qed.

Lemma scan_after_probe_launches folder prefix fmt dpi color source device
    driver available w :
  exists cmds,
    launched (snd (scan_after_probe env folder prefix fmt dpi color source
                     device driver available w))
    = launched w ++ cmds
    /\ match device with
       | Some given =>
           cmds = []
           \/ cmds = [scan_arguments folder prefix fmt dpi color source given
                        driver]
       | None =>
           cmds = []
           \/ cmds = [listing_command driver]
           \/ exists found,
                found <> []
                /\ cmds = [listing_command driver;
                           scan_arguments folder prefix fmt dpi color source
                             found driver]
       end.
Proof.
  unfold scan_after_probe. destruct available; cbn [negb].
  - destruct device as [given|].
    + eexists. split; [apply scan_with_device_launches|]. now right.
    + unfold bind at 1.
      pose proof (get_scanner_device_inv env driver w) as [Hl Hd].
      destruct (get_scanner_device env driver w) as [[found|e] w1];
        cbn [fst snd] in *.
      * destruct found as [[|c d]|]; cbn [falsy].
        -- run_monad. exists [listing_command driver].
           split; [exact Hl|]. right; now left.
        -- rewrite scan_with_device_launches, Hl, <- app_assoc.
           eexists. split; [reflexivity|]. right; right. exists (c :: d).
           split; [discriminate|reflexivity].
        -- run_monad. exists [listing_command driver].
           split; [exact Hl|]. right; now left.
      * exists [listing_command driver]. split; [exact Hl|]. right; now left.
  - run_monad. exists []. split; [now rewrite app_nil_r|].
    destruct device; now left.
Qed.

End Launches.

(** X11.  A scan launches at most three commands and always in the
    same order: the version query, then the device listing, then the
    scan.  The listing is launched only when no device was given,
    and then the scan is launched only with a name that is not
    empty; with a device given the scan comes right after the
    version query.  Nothing is launched before the version query,
    whatever fails. *)
Theorem X11_launch_order env folder prefix fmt dpi color source device
    driver w :
  exists cmds,
    launched (snd (scan_with_naps2 env folder prefix fmt dpi color source
                     device driver w))
    = launched w ++ cmds
    /\ (cmds = []
        \/ cmds = [version_command]
        \/ match device with
           | Some given =>
               cmds = [version_command;
                       scan_arguments folder prefix fmt dpi color source
                         given driver]
           | None =>
               cmds = [version_command; listing_command driver]
               \/ exists found,
                    found <> []
                    /\ cmds = [version_command; listing_command driver;
                               scan_arguments folder prefix fmt dpi color
                                 source found driver]
           end).
Proof.
  assert (forall body : M bool,
             (exists cmds, launched (snd (body w)) = launched w ++ cmds
                           /\ (cmds = [] \/ cmds = [version_command] \/
                               match device with
                               | Some given =>
  cmds = [version_command;
          scan_arguments folder prefix fmt dpi color source given driver]
                               | None =>
  cmds = [version_command; listing_command driver]
  \/ exists found,
       found <> []
       /\ cmds = [version_command; listing_command driver;
                  scan_arguments folder prefix fmt dpi color source found
                    driver]
                               end)) ->
             exists cmds,
               launched
                 (snd (try_except body is_Exception
                         (fun e => print (u "Error during scan: "
                                          ++ exn_msg e) ;; ret false) w))
               = launched w ++ cmds
               /\ (cmds = [] \/ cmds = [version_command] \/
                   match device with
                   | Some given =>
  cmds = [version_command;
          scan_arguments folder prefix fmt dpi color source given driver]
                   | None =>
  cmds = [version_command; listing_command driver]
  \/ exists found,
       found <> []
       /\ cmds = [version_command; listing_command driver;
                  scan_arguments folder prefix fmt dpi color source found
                    driver]
                   end)) as Htry.
  { intros body [cmds [Hl Hc]]. exists cmds. split; [|exact Hc].
    unfold try_except. destruct (body w) as [[ok|e] w1]; cbn [fst snd] in *;
      [exact Hl|].
    destruct (is_Exception e); run_monad; exact Hl. }
  unfold scan_with_naps2. apply Htry. clear Htry.
  unfold scan_try_block. run_monad.
  destruct (fault env w (Mkdir folder));
    [exists []; rewrite app_nil_r; auto|].
  destruct (fault env _ (Exists folder));
    [exists []; rewrite app_nil_r; auto|].
  cbn [fs with_fs]. rewrite fs_mkdir_present. cbn [negb].
  match goal with
  | |- context [is_naps2_available env ?w0] =>
      pose proof (proj1 (available_world env w0)) as Ha;
      destruct (is_naps2_available env w0) as [[available|e] w1]
  end; cbn [fst snd launched with_fs] in *.
  - destruct (scan_after_probe_launches env folder prefix fmt dpi color
                source device driver available w1) as [cmds [Hl Hc]].
    rewrite Ha in Hl.
    exists (version_command :: cmds).
    split; [rewrite Hl, <- app_assoc; reflexivity|].
    destruct device as [given|].
    + destruct Hc as [->| ->]; auto.
    + destruct Hc as [->|[->|[found [Hne ->]]]]; auto.
      right; right; right. now exists found.
  - exists [version_command]. auto.
Qed.

(** ** Files that were there before the scan *)





(** ** What a scan prints *)



(** ** The message that is never printed *)


(** ** Output that does not decode *)

Section Undecodable.

Variable env : Env.
Hypothesis calm : no_faults env.





End Undecodable.



(** ** The sizes of the summary *)

Section Grouping.

Local Open Scope N_scope.

Lemma ungroup_cons c s :
  (c =? 44) = false -> ungroup (c :: s) = c :: ungroup s.
Proof. intros H. unfold ungroup. cbn [filter]. now rewrite H. Qed.

Lemma ungroup_group3 : forall fuel l,
  (List.length l <= fuel)%nat ->
  Forall (fun c => (c =? 44) = false) l ->
  ungroup (group3 l) = l.
Proof.
  induction fuel as [|fuel IH]; intros l Hlen Hd.
  - destruct l; [reflexivity|cbn in Hlen; lia].
  - destruct l as [|a l]; [reflexivity|].
    inversion_clear Hd as [|? ? Ha Hl].
    destruct l as [|b0 l]; [cbn [group3]; now rewrite ungroup_cons|].
    inversion_clear Hl as [|? ? Hb Hl'].
    destruct l as [|c l];
      [cbn [group3]; now rewrite !ungroup_cons|].
    inversion_clear Hl' as [|? ? Hc Hr].
    destruct l as [|x rest];
      [cbn [group3]; now rewrite !ungroup_cons|].
    change (group3 (a :: b0 :: c :: x :: rest))
      with (a :: b0 :: c :: 44 :: group3 (x :: rest)).
    rewrite !ungroup_cons by assumption. do 3 f_equal.
    unfold ungroup at 1. cbn [filter]. change (44 =? 44) with true.
    cbn [negb]. apply IH; [cbn [List.length] in *; lia|exact Hr].
Qed.

Lemma uint_codes_no_comma d :
  Forall (fun c => (c =? 44) = false) (uint_codes d).
Proof. induction d; cbn [uint_codes]; constructor; auto. Qed.

Lemma ungroup_rev s : ungroup (rev s) = rev (ungroup s).
Proof.
  unfold ungroup. induction s as [|c s IH]; [reflexivity|].
  cbn [rev filter]. rewrite filter_app, IH. cbn [filter].
  destruct (negb (c =? 44)); cbn [rev]; [reflexivity|].
  now rewrite app_nil_r.
Qed.

Lemma ungroup_grouped n : ungroup (str_of_Z_grouped n) = str_of_Z n.
Proof.
  unfold str_of_Z_grouped, str_of_Z.
  assert (forall d, ungroup (rev (group3 (rev (uint_codes d))))
                    = uint_codes d) as H.
  { intros d. rewrite ungroup_rev.
    rewrite (ungroup_group3 (List.length (rev (uint_codes d)))).
    - apply rev_involutive.
    - lia.
    - apply Forall_rev, uint_codes_no_comma. }
  destruct (Z.to_int n) as [d|d]; [apply H|].
  unfold ungroup in *. cbn [filter]. change (45 =? 44) with false.
  cbn [negb]. f_equal. apply H.
Qed.

End Grouping.

(** X16.  The size the summary shows for a file is its size in whole
    kilobytes written with thousands separators: once the commas are
    taken out, the number shown reads back, with [int], as the size
    that was computed, and without them it is the plain numeral. *)
Theorem X16_size_reads_back name size_kb :
  exists shown,
    file_line name size_kb = u "  " ++ name ++ u " (" ++ shown ++ u " KB)"
    /\ ungroup shown = str_of_Z size_kb
    /\ py_int (ungroup shown) = Some size_kb.
Proof.
  exists (str_of_Z_grouped size_kb). split; [reflexivity|].
  rewrite ungroup_grouped. split; [reflexivity|apply py_int_str_of_Z].
Qed.

(** ** The output folder *)



